(** * edx-lint: the docstring-format checker for Open edX filters

    A shallow embedding of
    [edx_lint/pylint/filters_docstring/filters_docstring_check.py].

    The checker applies three regular expressions to the docstring of a
    class with [re.search] and reports one pylint message per expression
    that finds no match.  The development has four layers:

    - Python text as lists of code points;
    - the fragment of the [re] pattern language the checker's patterns
      are written in: a parser from the pattern text, the language of a
      pattern, and an executable search by derivatives, proved to decide
      the language;
    - the checker itself ([_check_docstring_format], [visit_classdef]) in
      a monad of linter state and exceptions;
    - the properties of the checker. *)

From Stdlib Require Import List String Ascii NArith ZArith Bool Arith Lia Sorted.
From Stdlib Require Import Permutation DecimalString.
Import ListNotations.

Set Implicit Arguments.

Local Open Scope list_scope.

(* ===================================================================== *)
(** ** Python text *)
(* ===================================================================== *)

Module PyStr.

(** A Python [str] is a sequence of Unicode code points. *)
Definition codepoint := N.
Definition str := list codepoint.

Definition NL : codepoint := 10%N.

Definition of_ascii (a : ascii) : codepoint := N_of_ascii a.

(** The text of a raw literal [r"..."]: every character stands for
    itself, the backslash included. *)
Definition raw (s : string) : str := map of_ascii (list_ascii_of_string s).

(** The text of an ordinary literal ["..."], where backslash-n is the
    newline and a doubled backslash is one backslash. *)
Fixpoint unescape (l : list ascii) : str :=
  match l with
  | [] => []
  | "\"%char :: "n"%char :: l' => NL :: unescape l'
  | "\"%char :: "\"%char :: l' => of_ascii "\"%char :: unescape l'
  | a :: l' => of_ascii a :: unescape l'
  end.

Definition lit (s : string) : str := unescape (list_ascii_of_string s).

Fixpoint eqb (a b : str) : bool :=
  match a, b with
  | [], [] => true
  | x :: a', y :: b' => N.eqb x y && eqb a' b'
  | _, _ => false
  end.

(** [str.startswith]. *)
Fixpoint startswith (s t : str) {struct t} : bool :=
  match t with
  | [] => true
  | y :: t' =>
      match s with
      | [] => false
      | x :: s' => N.eqb x y && startswith s' t'
      end
  end.

(** [Py_UNICODE_ISSPACE]: the characters the class [\s] of a [str]
    pattern accepts. *)
Definition isspace (c : codepoint) : bool :=
  ((9 <=? c) && (c <=? 13) || (28 <=? c) && (c <=? 32)
   || (c =? 133) || (c =? 160) || (c =? 5760)
   || (8192 <=? c) && (c <=? 8202)
   || (c =? 8232) || (c =? 8233) || (c =? 8239) || (c =? 8287)
   || (c =? 12288))%N.

Definition is_newline (c : codepoint) : bool := N.eqb c NL.

End PyStr.
Import PyStr.

(* ===================================================================== *)
(** ** The pattern language of [re] used by the checker *)
(* ===================================================================== *)

Module Re.

(** One-character items: a literal character, the class [\s], the dot
    (any character but the newline, as the checker never passes
    [re.DOTALL]) and a negated set [[^...]]. *)
Inductive charset :=
| CChar (c : codepoint)
| CSpace
| CDot
| CNotIn (l : list codepoint).

Definition in_charset (p : charset) (c : codepoint) : bool :=
  match p with
  | CChar d => N.eqb c d
  | CSpace => isspace c
  | CDot => negb (is_newline c)
  | CNotIn l => negb (existsb (N.eqb c) l)
  end.

(** Patterns.  [Void] has no concrete syntax; it is the residue of a
    failed literal in the matcher below. *)
Inductive regex :=
| Void
| Eps
| Sym (p : charset)
| Cat (r1 r2 : regex)
| Alt (r1 r2 : regex)
| Star (r : regex).

(** [r+] *)
Definition Plus (r : regex) : regex := Cat r (Star r).

(** A sequence of items, as the parser builds it. *)
Definition cat_list (items : list regex) : regex := fold_right Cat Eps items.

Definition chars (t : str) : list regex := map (fun c => Sym (CChar c)) t.

(** *** Parsing the pattern text

    The grammar is the part of Python's that the three patterns need:
    literal characters, [.], the escapes [\s] and [\n], negated sets,
    groups, alternation and the postfix [*] and [+].  Anything else is
    refused, which stands for [re.error]. *)

Definition special (a : ascii) : bool :=
  existsb (Ascii.eqb a)
    ["."; "^"; "$"; "*"; "+"; "?"; "{"; "}"; "["; "]"; "\"; "|"; "("; ")"]%char.

(** The members of a set up to the closing bracket. *)
Fixpoint parse_set (p : list ascii) : option (list codepoint * list ascii) :=
  match p with
  | [] => None
  | "]"%char :: rest => Some ([], rest)
  | "\"%char :: "n"%char :: rest =>
      match parse_set rest with
      | Some (l, rest') => Some (NL :: l, rest')
      | None => None
      end
  | "\"%char :: _ => None
  | a :: rest =>
      match parse_set rest with
      | Some (l, rest') => Some (of_ascii a :: l, rest')
      | None => None
      end
  end.

Definition parse_quant (r : regex) (p : list ascii) : regex * list ascii :=
  match p with
  | "*"%char :: rest => (Star r, rest)
  | "+"%char :: rest => (Plus r, rest)
  | _ => (r, p)
  end.

Fixpoint parse_alt (fuel : nat) (p : list ascii) : option (regex * list ascii) :=
  match fuel with
  | O => None
  | S f =>
      match parse_seq f p with
      | Some (items, "|"%char :: rest) =>
          match parse_alt f rest with
          | Some (r2, rest') => Some (Alt (cat_list items) r2, rest')
          | None => None
          end
      | Some (items, rest) => Some (cat_list items, rest)
      | None => None
      end
  end
with parse_seq (fuel : nat) (p : list ascii) : option (list regex * list ascii) :=
  match fuel with
  | O => None
  | S f =>
      match p with
      | [] => Some ([], [])
      | "|"%char :: _ => Some ([], p)
      | ")"%char :: _ => Some ([], p)
      | _ =>
          match parse_atom f p with
          | Some (a, rest) =>
              let (q, rest') := parse_quant a rest in
              match parse_seq f rest' with
              | Some (items, rest'') => Some (q :: items, rest'')
              | None => None
              end
          | None => None
          end
      end
  end
with parse_atom (fuel : nat) (p : list ascii) : option (regex * list ascii) :=
  match fuel with
  | O => None
  | S f =>
      match p with
      | "("%char :: rest =>
          match parse_alt f rest with
          | Some (r, ")"%char :: rest') => Some (r, rest')
          | _ => None
          end
      | "."%char :: rest => Some (Sym CDot, rest)
      | "\"%char :: "s"%char :: rest => Some (Sym CSpace, rest)
      | "\"%char :: "n"%char :: rest => Some (Sym (CChar NL), rest)
      | "["%char :: "^"%char :: rest =>
          match parse_set rest with
          | Some (l, rest') => Some (Sym (CNotIn l), rest')
          | None => None
          end
      | a :: rest =>
          if special a then None else Some (Sym (CChar (of_ascii a)), rest)
      | [] => None
      end
  end.

(** [re.compile]: [None] stands for [re.error]. *)
Definition compile (pattern : string) : option regex :=
  let p := list_ascii_of_string pattern in
  match parse_alt (3 * S (List.length p)) p with
  | Some (r, []) => Some r
  | _ => None
  end.

(** *** The language of a pattern *)

Inductive matches : regex -> str -> Prop :=
| MEps : matches Eps []
| MSym p c : in_charset p c = true -> matches (Sym p) [c]
| MCat r1 r2 s1 s2 :
    matches r1 s1 -> matches r2 s2 -> matches (Cat r1 r2) (s1 ++ s2)
| MAltL r1 r2 s : matches r1 s -> matches (Alt r1 r2) s
| MAltR r1 r2 s : matches r2 s -> matches (Alt r1 r2) s
| MStarNil r : matches (Star r) []
| MStarApp r s1 s2 :
    matches r s1 -> matches (Star r) s2 -> matches (Star r) (s1 ++ s2).

(** *** Searching by derivatives *)

Fixpoint nullable (r : regex) : bool :=
  match r with
  | Void => false
  | Eps => true
  | Sym _ => false
  | Cat r1 r2 => nullable r1 && nullable r2
  | Alt r1 r2 => nullable r1 || nullable r2
  | Star _ => true
  end.

(** Constructors that drop [Void] and [Eps], so that residues stay
    small. *)
Definition mkCat (r1 r2 : regex) : regex :=
  match r1, r2 with
  | Void, _ => Void
  | _, Void => Void
  | Eps, _ => r2
  | _, Eps => r1
  | _, _ => Cat r1 r2
  end.

Definition mkAlt (r1 r2 : regex) : regex :=
  match r1, r2 with
  | Void, _ => r2
  | _, Void => r1
  | _, _ => Alt r1 r2
  end.

Fixpoint deriv (c : codepoint) (r : regex) : regex :=
  match r with
  | Void => Void
  | Eps => Void
  | Sym p => if in_charset p c then Eps else Void
  | Cat r1 r2 =>
      if nullable r1
      then mkAlt (mkCat (deriv c r1) r2) (deriv c r2)
      else mkCat (deriv c r1) r2
  | Alt r1 r2 => mkAlt (deriv c r1) (deriv c r2)
  | Star r1 => mkCat (deriv c r1) (Star r1)
  end.

(** [re.match] as a truth value: some prefix of [s] is in the language. *)
Fixpoint match_here (r : regex) (s : str) : bool :=
  nullable r ||
  match s with
  | [] => false
  | c :: s' => match_here (deriv c r) s'
  end.

(** [re.search] as a truth value: the pattern matches at some position. *)
Fixpoint search (r : regex) (s : str) : bool :=
  match_here r s ||
  match s with
  | [] => false
  | _ :: s' => search r s'
  end.

End Re.

(* ===================================================================== *)
(** ** The checker *)
(* ===================================================================== *)

Local Open Scope string_scope.
Local Open Scope list_scope.

(** *** The host: astroid class nodes and the pylint linter *)

(** The node of a string constant; [value] is its text. *)
Record Const := { value : str }.

(** What the checker reads of an astroid [ClassDef]: its name, the
    ancestry test [is_subtype_of] on a qualified name, and the node of
    its docstring, [None] when the class has none. *)
Record ClassDef := {
  name : str;
  is_subtype_of : string -> bool;
  doc_node : option Const
}.

(** A message handed to the linter: [add_message(msgid, node=, args=)]. *)
Record Message := {
  msg_id : string;
  msg_node : ClassDef;
  msg_args : list str
}.

(** The linter, as far as the checker changes it: the messages added so
    far, oldest first. *)
Definition Linter := list Message.

(** *** Linter state and exceptions *)

Inductive exn := re_error.

Inductive outcome (A : Type) :=
| Ok (a : A)
| Raise (e : exn).
Arguments Ok {A} a.
Arguments Raise {A} e.

Definition M (A : Type) : Type := Linter -> outcome A * Linter.

Definition ret {A} (a : A) : M A := fun st => (Ok a, st).

Definition bind {A B} (c : M A) (k : A -> M B) : M B :=
  fun st =>
    match c st with
    | (Ok a, st') => k a st'
    | (Raise e, st') => (Raise e, st')
    end.

Definition raise {A} (e : exn) : M A := fun st => (Raise e, st).

Declare Scope checker_scope.
Delimit Scope checker_scope with checker.
Notation "x <- c ;; k" := (bind c (fun x => k))
  (at level 61, c at next level, right associativity) : checker_scope.
Notation "c ;; k" := (bind c (fun _ => k))
  (at level 61, right associativity) : checker_scope.
Local Open Scope checker_scope.

(** [for x in l: acc = body(x, acc)] *)
Fixpoint for_fold {A B} (l : list A) (acc : B) (body : A -> B -> M B) : M B :=
  match l with
  | [] => ret acc
  | x :: l' => acc' <- body x acc ;; for_fold l' acc' body
  end.

(** [for x in l: body(x)] *)
Fixpoint for_each {A} (l : list A) (body : A -> M unit) : M unit :=
  match l with
  | [] => ret tt
  | x :: l' => body x ;; for_each l' body
  end.

(** [self.add_message(msgid, node=node, args=args)]: the linter records
    the message. *)
Definition add_message (msgid : string) (node : ClassDef) (args : list str)
  : M unit :=
  fun st =>
    (Ok tt,
     st ++ [{| msg_id := msgid; msg_node := node; msg_args := args |}]).

(** *** [re.search(pattern, string, flags)]

    The result is the truth value of the match object.  [re.MULTILINE]
    changes what [^] and [$] match; the pattern language above has
    neither, so the flag is carried and has no effect. *)

Inductive re_flag := MULTILINE.

Definition re_search (pattern : string) (s : str) (flags : re_flag) : M bool :=
  match Re.compile pattern with
  | Some r => ret (Re.search r s)
  | None => raise re_error
  end.

(** *** [FiltersDocstringFormatChecker] *)

Definition DOCSTRING_MISSING_PURPOSE := "filter-docstring-missing-purpose".
Definition DOCSTRING_MISSING_TYPE := "filter-docstring-missing-type".
Definition DOCSTRING_MISSING_TRIGGER := "filter-docstring-missing-trigger".

Definition PURPOSE_PATTERN := "Purpose:\s*.*\n".
Definition TYPE_PATTERN := "Filter Type:\s*.*\n".
Definition TRIGGER_PATTERN :=
  "Trigger:\s*(NA|-\s*Repository:\s*[^\n]+\s*-\s*Path:\s*[^\n]+\s*-\s*Function\s*or\s*Method:\s*[^\n]+)".

Definition required_sections : list (string * string) :=
  [ (PURPOSE_PATTERN, DOCSTRING_MISSING_PURPOSE);
    (TYPE_PATTERN, DOCSTRING_MISSING_TYPE);
    (TRIGGER_PATTERN, DOCSTRING_MISSING_TRIGGER) ].

Definition _check_docstring_format (docstring : str) : M (list string) :=
  for_fold required_sections []
    (fun '(pattern, error_message) error_messages =>
       found <- re_search pattern docstring MULTILINE ;;
       if negb found
       then ret (error_messages ++ [error_message])
       else ret error_messages).

(** The decorator [only_required_for_messages] only tags the method with
    the three message names, for the linter to skip the call when all of
    them are disabled; the body below is what runs on a call. *)
Definition visit_classdef (node : ClassDef) : M unit :=
  if negb (is_subtype_of node "openedx_filters.tooling.OpenEdxPublicFilter")
  then ret tt
  else if PyStr.eqb (name node) (lit "OpenEdxPublicFilter")
  then ret tt
  else
    let docstring :=
      match doc_node node with
      | Some d => value d
      | None => lit ""
      end in
    error_messages <- _check_docstring_format docstring ;;
    match error_messages with
    | [] => ret tt
    | _ :: _ =>
        for_each error_messages
          (fun error_message => add_message error_message node [name node])
    end.

(* ===================================================================== *)
(** ** The rules read as properties of the text *)
(* ===================================================================== *)

Definition has_newline (s : str) : bool := existsb is_newline s.

Definition no_newline (s : str) : bool :=
  forallb (fun c => negb (is_newline c)) s.

(** [tok] stands at the head of [s], and a newline comes after it. *)
Definition token_line_here (tok s : str) : bool :=
  startswith s tok && has_newline (skipn (List.length tok) s).

(** What the code's section patterns ask for: [tok] somewhere in the
    text, at any column, and a newline somewhere after it. *)
Fixpoint token_then_newline (tok s : str) : bool :=
  token_line_here tok s ||
  match s with
  | [] => false
  | _ :: s' => token_then_newline tok s'
  end.

(** What the specification's section rules ask for: a line of the text
    that begins with [tok] and runs up to a newline.  A line begins at the
    start of the text and after every newline; [bol] tells whether the
    scan stands at such a place. *)
Fixpoint line_scan (bol : bool) (tok s : str) : bool :=
  bol && token_line_here tok s ||
  match s with
  | [] => false
  | c :: s' => line_scan (is_newline c) tok s'
  end.

Definition line_begins_with (tok s : str) : bool := line_scan true tok s.

(** The three patterns as the parser reads them.  The section pattern
    [tok\s*.*\n] is shared by the Purpose and the Filter Type rule. *)
Definition spaces : Re.regex := Re.Star (Re.Sym Re.CSpace).
Definition line_text : Re.regex := Re.Plus (Re.Sym (Re.CNotIn [NL])).

Definition section_re (tok : string) : Re.regex :=
  Re.cat_list
    (Re.chars (raw tok)
     ++ [spaces; Re.Star (Re.Sym Re.CDot); Re.Sym (Re.CChar NL)]).

Definition trigger_list_items : list Re.regex :=
  Re.chars (raw "-") ++ [spaces] ++ Re.chars (raw "Repository:")
  ++ [spaces; line_text; spaces]
  ++ Re.chars (raw "-") ++ [spaces] ++ Re.chars (raw "Path:")
  ++ [spaces; line_text; spaces]
  ++ Re.chars (raw "-") ++ [spaces] ++ Re.chars (raw "Function")
  ++ [spaces] ++ Re.chars (raw "or")
  ++ [spaces] ++ Re.chars (raw "Method:")
  ++ [spaces; line_text].

Definition trigger_re : Re.regex :=
  Re.cat_list
    (Re.chars (raw "Trigger:")
     ++ [spaces;
         Re.Alt (Re.cat_list (Re.chars (raw "NA")))
                (Re.cat_list trigger_list_items)]).

(** The messages of the rules whose pattern is not found, in rule order. *)
Definition missing (r : Re.regex) (error_message : string) (docstring : str)
  : list string :=
  if Re.search r docstring then [] else [error_message].

Definition violations (docstring : str) : list string :=
  missing (section_re "Purpose:") DOCSTRING_MISSING_PURPOSE docstring
  ++ missing (section_re "Filter Type:") DOCSTRING_MISSING_TYPE docstring
  ++ missing trigger_re DOCSTRING_MISSING_TRIGGER docstring.

Definition BASE_FILTER := "openedx_filters.tooling.OpenEdxPublicFilter".

(** The docstring [visit_classdef] hands to the validation. *)
Definition docstring_of (node : ClassDef) : str :=
  match doc_node node with
  | Some d => value d
  | None => lit ""
  end.

(** The message [visit_classdef] adds for one violation of [node]. *)
Definition diagnostic (node : ClassDef) (error_message : string) : Message :=
  {| msg_id := error_message; msg_node := node; msg_args := [name node] |}.

(** A subclass of the base filter that has no docstring. *)
Definition undocumented_filter : ClassDef :=
  {| name := lit "CertificateRenderStarted";
     is_subtype_of := fun qname => String.eqb qname BASE_FILTER;
     doc_node := None |}.

(** The rule order: Purpose, then Filter Type, then Trigger. *)
Inductive reported_before : string -> string -> Prop :=
| purpose_type :
    reported_before DOCSTRING_MISSING_PURPOSE DOCSTRING_MISSING_TYPE
| purpose_trigger :
    reported_before DOCSTRING_MISSING_PURPOSE DOCSTRING_MISSING_TRIGGER
| type_trigger :
    reported_before DOCSTRING_MISSING_TYPE DOCSTRING_MISSING_TRIGGER.

(* ===================================================================== *)
(** ** The Trigger rule as a property of the text *)
(* ===================================================================== *)

(** [tok in s] *)
Fixpoint contains (tok s : str) : bool :=
  startswith s tok ||
  match s with
  | [] => false
  | _ :: s' => contains tok s'
  end.

(** A run of characters of the class [\s], the empty run included. *)
Definition blank (w : str) : Prop := forallb isspace w = true.

(** The content of a field: one character or more, none a newline. *)
Definition field_text (x : str) : Prop := x <> [] /\ no_newline x = true.

(** What may follow [Trigger:] and its spaces: the two characters [NA],
    or the three fields in their order. *)
Inductive trigger_body : str -> Prop :=
| body_NA : trigger_body (raw "NA")
| body_list w1 w2 r w3 w4 w5 p w6 w7 w8 w9 w10 f :
    blank w1 -> blank w2 -> field_text r -> blank w3 ->
    blank w4 -> blank w5 -> field_text p -> blank w6 ->
    blank w7 -> blank w8 -> blank w9 -> blank w10 -> field_text f ->
    trigger_body
      (raw "-" ++ w1 ++ raw "Repository:" ++ w2 ++ r ++ w3
       ++ raw "-" ++ w4 ++ raw "Path:" ++ w5 ++ p ++ w6
       ++ raw "-" ++ w7 ++ raw "Function" ++ w8 ++ raw "or" ++ w9
       ++ raw "Method:" ++ w10 ++ f).

Definition trigger_section_present (d : str) : Prop :=
  exists pre w0 body post,
    d = pre ++ raw "Trigger:" ++ w0 ++ body ++ post
    /\ blank w0 /\ trigger_body body.

(* ===================================================================== *)
(** ** The message table and the text of a message *)
(* ===================================================================== *)

(** [template % args] for a tuple of strings, on templates whose
    conversions are [%s] and [%%]: [None] stands for the [TypeError] of
    too few or too many arguments (and for any other conversion). *)
Fixpoint percent_format (template : list ascii) (args : list str)
  : option str :=
  match template with
  | [] =>
      match args with
      | [] => Some []
      | _ :: _ => None
      end
  | "%"%char :: "s"%char :: t =>
      match args with
      | a :: args' => option_map (app a) (percent_format t args')
      | [] => None
      end
  | "%"%char :: "%"%char :: t =>
      option_map (cons (of_ascii "%"%char)) (percent_format t args)
  | "%"%char :: _ => None
  | c :: t => option_map (cons (of_ascii c)) (percent_format t args)
  end.

(** ["%d" % z] for an integer. *)
Definition percent_d (z : Z) : string := NilZero.string_of_int (Z.to_int z).

Section Messages.

(** [BASE_ID] of [edx_lint.pylint.common], an integer. *)
Variable BASE_ID : Z.

(** The items of the dict [msgs], in the order of the literal: the
    message id, then the template, the symbol and the description. *)
Definition msgs : list (string * (string * string * string)) :=
  [ (("E" ++ percent_d BASE_ID ++ "91")%string,
     ("Filter's (%s) docstring is missing the required purpose section or is badly formatted",
      DOCSTRING_MISSING_PURPOSE,
      "filters docstring is missing the required purpose section or is badly formatted"));
    (("E" ++ percent_d BASE_ID ++ "92")%string,
     ("Filter's (%s) docstring is missing the required type section or is badly formatted",
      DOCSTRING_MISSING_TYPE,
      "filters docstring is missing the required type section or is badly formatted"));
    (("E" ++ percent_d BASE_ID ++ "93")%string,
     ("Filter's (%s) docstring is missing the required trigger section or is badly formatted",
      DOCSTRING_MISSING_TRIGGER,
      "filters docstring is missing the required trigger section or is badly formatted")) ].

(** The entry of [msgs] that declares [symbol]. *)
Definition message_definition (symbol : string)
  : option (string * (string * string * string)) :=
  find (fun '(_, (_, sym, _)) => String.eqb sym symbol) msgs.

(** The text the linter shows for a message: the template of its
    definition, formatted with its arguments. *)
Definition message_text (m : Message) : option str :=
  match message_definition (msg_id m) with
  | Some (_, (template, _, _)) =>
      percent_format (list_ascii_of_string template) (msg_args m)
  | None => None
  end.

End Messages.

(** The two guards of [visit_classdef]. *)
Definition selected (node : ClassDef) : bool :=
  is_subtype_of node BASE_FILTER
  && negb (PyStr.eqb (name node) (lit "OpenEdxPublicFilter")).

(** The literal tokens of the Trigger pattern that a text must hold for
    the pattern to be found: [Trigger:], and then [NA] or the three field
    names. *)
Definition trigger_tokens_present (d : str) : bool :=
  contains (raw "Trigger:") d
  && (contains (raw "NA") d
      || contains (raw "Repository:") d && contains (raw "Path:") d
         && contains (raw "Method:") d).

(** The word of each message in its template. *)
Definition section_word : list (string * string) :=
  [ (DOCSTRING_MISSING_PURPOSE, "purpose");
    (DOCSTRING_MISSING_TYPE, "type");
    (DOCSTRING_MISSING_TRIGGER, "trigger") ].

(** The message names the decorator [only_required_for_messages] puts on
    [visit_classdef]: the linter makes the call only when one of them is
    enabled. *)
Definition visit_classdef_checks_msgs : list string :=
  [ DOCSTRING_MISSING_PURPOSE; DOCSTRING_MISSING_TYPE;
    DOCSTRING_MISSING_TRIGGER ].

(** The messages [visit_classdef] adds for [node], whatever the linter
    held before. *)
Definition diagnostics_of (node : ClassDef) : list Message :=
  snd (visit_classdef node []).

(* ===================================================================== *)
(** ** Facts about text *)
(* ===================================================================== *)

Module PyStrFacts.

Lemma eqb_eq (a b : str) : eqb a b = true <-> a = b.
Proof.
  revert b; induction a as [|x a IH]; intros [|y b]; simpl;
    try (split; [discriminate | discriminate]); [tauto|].
  rewrite andb_true_iff, N.eqb_eq, IH.
  split; [intros [-> ->]; reflexivity | intros E; injection E; auto].
Qed.

Lemma startswith_iff (s t : str) :
  startswith s t = true <-> exists rest, s = t ++ rest.
Proof.
  revert s; induction t as [|y t IH]; intros s; simpl.
  - split; [intros _; exists s; reflexivity | reflexivity].
  - destruct s as [|x s].
    + split; [discriminate | intros [rest E]; discriminate].
    + rewrite andb_true_iff, N.eqb_eq, IH. split.
      * intros [-> [rest ->]]. exists rest. reflexivity.
      * intros [rest E]. injection E as -> ->. split; [reflexivity | eauto].
Qed.

End PyStrFacts.
Import PyStrFacts.

(* ===================================================================== *)
(** ** The search decides the language *)
(* ===================================================================== *)

Module ReFacts.
Import Re.

Create HintDb re.
#[local] Hint Constructors matches : re.

Lemma matches_Void_inv s : matches Void s -> False.
Proof. inversion 1. Qed.

Lemma matches_Eps_inv s : matches Eps s -> s = [].
Proof. inversion 1; reflexivity. Qed.

Lemma matches_Sym_inv p s :
  matches (Sym p) s -> exists c, s = [c] /\ in_charset p c = true.
Proof. inversion 1; subst; eauto. Qed.

Lemma matches_Cat_inv r1 r2 s :
  matches (Cat r1 r2) s ->
  exists s1 s2, s = s1 ++ s2 /\ matches r1 s1 /\ matches r2 s2.
Proof. inversion 1; subst; eauto. Qed.

Lemma matches_Alt_inv r1 r2 s :
  matches (Alt r1 r2) s -> matches r1 s \/ matches r2 s.
Proof. inversion 1; subst; auto. Qed.

(** A non-empty match of a star starts with a non-empty match of its
    body. *)
Lemma matches_Star_cons r c s :
  matches (Star r) (c :: s) ->
  exists s1 s2, s = s1 ++ s2 /\ matches r (c :: s1) /\ matches (Star r) s2.
Proof.
  intros H. remember (Star r) as r' eqn:Er. remember (c :: s) as t eqn:Et.
  revert r c s Er Et.
  induction H as [| | | | | |r0 s1 s2 H1 _ H2 IH2]; intros body hd tl Er Et;
    try discriminate.
  injection Er as ->.
  destruct s1 as [|d s1]; simpl in Et.
  - eapply IH2; eauto.
  - injection Et as -> <-. eauto.
Qed.

Lemma nullable_iff r : nullable r = true <-> matches r [].
Proof.
  induction r as [| |p|r1 IH1 r2 IH2|r1 IH1 r2 IH2|r IH]; simpl.
  - split; [discriminate | intros H; destruct (matches_Void_inv H)].
  - split; auto with re.
  - split; [discriminate|].
    intros H. apply matches_Sym_inv in H. destruct H as (c & E & _). discriminate.
  - rewrite andb_true_iff, IH1, IH2. split.
    + intros [H1 H2]. change (@nil codepoint) with (@nil codepoint ++ []). auto with re.
    + intros H. apply matches_Cat_inv in H. destruct H as (s1 & s2 & E & H1 & H2).
      symmetry in E. apply app_eq_nil in E. destruct E as [-> ->]. auto.
  - rewrite orb_true_iff, IH1, IH2. split.
    + intros [H|H]; auto with re.
    + apply matches_Alt_inv.
  - split; auto with re.
Qed.

Lemma mkCat_iff r1 r2 s : matches (mkCat r1 r2) s <-> matches (Cat r1 r2) s.
Proof.
  split.
  - intros H.
    destruct r1, r2; simpl in H;
      try (destruct (matches_Void_inv H)); try exact H;
      try (change s with ([] ++ s); auto with re; fail);
      try (rewrite <- (app_nil_r s); auto with re; fail).
  - intros H. apply matches_Cat_inv in H. destruct H as (s1 & s2 & -> & H1 & H2).
    destruct r1, r2; simpl;
      try (destruct (matches_Void_inv H1)); try (destruct (matches_Void_inv H2));
      try (apply matches_Eps_inv in H1; subst s1; simpl; exact H2);
      try (apply matches_Eps_inv in H2; subst s2; rewrite app_nil_r; exact H1);
      auto with re.
Qed.

Lemma mkAlt_iff r1 r2 s : matches (mkAlt r1 r2) s <-> matches (Alt r1 r2) s.
Proof.
  split.
  - intros H. destruct r1, r2; simpl in H; auto with re.
  - intros H. apply matches_Alt_inv in H.
    destruct H as [H|H]; destruct r1, r2; simpl;
      try (destruct (matches_Void_inv H)); auto with re.
Qed.

Lemma deriv_iff c r s : matches (deriv c r) s <-> matches r (c :: s).
Proof.
  revert s.
  induction r as [| |p|r1 IH1 r2 IH2|r1 IH1 r2 IH2|r IH]; intros s; simpl.
  - split; intros H; destruct (matches_Void_inv H).
  - split; intros H; [destruct (matches_Void_inv H)|].
    apply matches_Eps_inv in H. discriminate.
  - destruct (in_charset p c) eqn:E.
    + split; intros H.
      * apply matches_Eps_inv in H. subst s. auto with re.
      * apply matches_Sym_inv in H. destruct H as (d & Es & _).
        injection Es as _ ->. auto with re.
    + split; intros H; [destruct (matches_Void_inv H)|].
      apply matches_Sym_inv in H. destruct H as (d & Es & Hd).
      injection Es as -> _. congruence.
  - assert (Hl : matches (mkCat (deriv c r1) r2) s -> matches (Cat r1 r2) (c :: s)).
    { intros H. apply mkCat_iff, matches_Cat_inv in H.
      destruct H as (s1 & s2 & -> & H1 & H2).
      apply IH1 in H1. change (c :: s1 ++ s2) with ((c :: s1) ++ s2). auto with re. }
    assert (Hr : matches (Cat r1 r2) (c :: s) ->
                 matches (mkCat (deriv c r1) r2) s \/
                 (matches r1 [] /\ matches (deriv c r2) s)).
    { intros H. apply matches_Cat_inv in H.
      destruct H as ([|d s1] & s2 & E & H1 & H2); simpl in E.
      - right. subst s2. split; [exact H1 | apply IH2; exact H2].
      - injection E as -> ->. left. apply mkCat_iff. apply IH1 in H1. auto with re. }
    destruct (nullable r1) eqn:N.
    + rewrite mkAlt_iff. split.
      * intros H. apply matches_Alt_inv in H. destruct H as [H|H]; [auto|].
        apply IH2 in H. apply nullable_iff in N.
        change (c :: s) with ([] ++ c :: s). auto with re.
      * intros H. destruct (Hr H) as [H'|[_ H']]; auto with re.
    + split; [exact Hl|].
      intros H. destruct (Hr H) as [H'|[H' _]]; [exact H'|].
      apply nullable_iff in H'. congruence.
  - rewrite mkAlt_iff. split; intros H; apply matches_Alt_inv in H.
    + destruct H as [H|H]; [apply IH1 in H | apply IH2 in H]; auto with re.
    + destruct H as [H|H]; [apply IH1 in H | apply IH2 in H]; auto with re.
  - rewrite mkCat_iff. split; intros H.
    + apply matches_Cat_inv in H. destruct H as (s1 & s2 & -> & H1 & H2).
      apply IH in H1. change (c :: s1 ++ s2) with ((c :: s1) ++ s2). auto with re.
    + apply matches_Star_cons in H. destruct H as (s1 & s2 & -> & H1 & H2).
      apply IH in H1. auto with re.
Qed.

(** [match_here] finds exactly the texts with a prefix in the language. *)
Lemma match_here_iff r s :
  match_here r s = true <-> exists m rest, s = m ++ rest /\ matches r m.
Proof.
  revert r; induction s as [|c s IH]; intros r; simpl.
  - rewrite orb_false_r, nullable_iff. split.
    + intros H. exists [], []. auto.
    + intros (m & rest & E & H). symmetry in E. apply app_eq_nil in E.
      destruct E as [-> _]. exact H.
  - rewrite orb_true_iff, nullable_iff, IH. split.
    + intros [H|(m & rest & -> & H)].
      * exists [], (c :: s). auto.
      * exists (c :: m), rest. split; [reflexivity | apply deriv_iff; exact H].
    + intros ([|d m] & rest & E & H); [left; exact H|].
      simpl in E. injection E as -> ->. right.
      exists m, rest. split; [reflexivity | apply deriv_iff; exact H].
Qed.

(** [search] finds exactly the texts with a factor in the language. *)
Theorem search_iff r s :
  search r s = true <->
  exists pre m post, s = pre ++ m ++ post /\ matches r m.
Proof.
  induction s as [|c s IH]; cbn [search].
  - rewrite orb_false_r, match_here_iff. split.
    + intros (m & rest & E & H). exists [], m, rest. auto.
    + intros (pre & m & post & E & H). symmetry in E.
      apply app_eq_nil in E. destruct E as [-> E].
      apply app_eq_nil in E. destruct E as [-> ->]. exists [], []. auto.
  - rewrite orb_true_iff, match_here_iff, IH. split.
    + intros [(m & rest & E & H)|(pre & m & post & -> & H)].
      * exists [], m, rest. auto.
      * exists (c :: pre), m, post. auto.
    + intros ([|d pre] & m & post & E & H); simpl in E.
      * left. eauto.
      * injection E as -> ->. right. eauto.
Qed.

End ReFacts.

(* ===================================================================== *)
(** ** The languages of the checker's patterns *)
(* ===================================================================== *)

Module PatternFacts.
Import Re ReFacts.

Lemma compile_purpose : compile PURPOSE_PATTERN = Some (section_re "Purpose:").
Proof. vm_compute. reflexivity. Qed.

Lemma compile_type : compile TYPE_PATTERN = Some (section_re "Filter Type:").
Proof. vm_compute. reflexivity. Qed.

Lemma compile_trigger : compile TRIGGER_PATTERN = Some trigger_re.
Proof. vm_compute. reflexivity. Qed.

(** Sequences. *)

Lemma matches_nil m : matches (cat_list []) m <-> m = [].
Proof.
  simpl. split; [apply matches_Eps_inv | intros ->; constructor].
Qed.

Lemma matches_cons r l m :
  matches (cat_list (r :: l)) m <->
  exists m1 m2, m = m1 ++ m2 /\ matches r m1 /\ matches (cat_list l) m2.
Proof.
  simpl. split; [apply matches_Cat_inv|].
  intros (m1 & m2 & -> & H1 & H2). constructor; assumption.
Qed.

Lemma matches_app l1 l2 m :
  matches (cat_list (l1 ++ l2)) m <->
  exists m1 m2,
    m = m1 ++ m2 /\ matches (cat_list l1) m1 /\ matches (cat_list l2) m2.
Proof.
  revert m; induction l1 as [|r l1 IH]; intros m.
  - rewrite app_nil_l. split.
    + intros H. exists [], m. repeat split; [apply matches_nil; reflexivity | exact H].
    + intros (m1 & m2 & -> & H1 & H2). apply matches_nil in H1. subst m1. exact H2.
  - rewrite <- app_comm_cons, matches_cons. split.
    + intros (m1 & m2 & -> & H1 & H2). apply IH in H2.
      destruct H2 as (m3 & m4 & -> & H3 & H4).
      exists (m1 ++ m3), m4. rewrite app_assoc. repeat split; [|exact H4].
      apply matches_cons. eauto.
    + intros (m1 & m2 & -> & H1 & H2). apply matches_cons in H1.
      destruct H1 as (m3 & m4 & -> & H3 & H4).
      exists m3, (m4 ++ m2). rewrite app_assoc. repeat split; [exact H3|].
      apply IH. eauto.
Qed.

(** A literal matches itself and nothing else. *)
Lemma matches_chars t m : matches (cat_list (chars t)) m <-> m = t.
Proof.
  revert m; induction t as [|c t IH]; intros m.
  - apply matches_nil.
  - change (chars (c :: t)) with (Sym (CChar c) :: chars t).
    rewrite matches_cons. split.
    + intros (m1 & m2 & -> & H1 & H2). apply matches_Sym_inv in H1.
      destruct H1 as (d & -> & Hd). simpl in Hd. apply N.eqb_eq in Hd.
      apply IH in H2. subst. reflexivity.
    + intros ->. exists [c], t. repeat split.
      * constructor. simpl. apply N.eqb_refl.
      * apply IH. reflexivity.
Qed.

(** A starred class matches the runs of its members. *)
Lemma matches_star_set p m :
  matches (Star (Sym p)) m <-> forallb (in_charset p) m = true.
Proof.
  induction m as [|c m IH].
  - split; [reflexivity | constructor].
  - simpl. rewrite andb_true_iff, <- IH. split.
    + intros H. apply matches_Star_cons in H.
      destruct H as (s1 & s2 & -> & H1 & H2).
      apply matches_Sym_inv in H1. destruct H1 as (d & E & Hd).
      injection E as E1 E2. subst d s1. auto.
    + intros [Hc Hm]. change (c :: m) with ([c] ++ m).
      constructor; [constructor|]; assumption.
Qed.

Lemma matches_plus_set p m :
  matches (Plus (Sym p)) m <-> m <> [] /\ forallb (in_charset p) m = true.
Proof.
  unfold Plus. split.
  - intros H. apply matches_Cat_inv in H. destruct H as (m1 & m2 & -> & H1 & H2).
    apply matches_Sym_inv in H1. destruct H1 as (c & -> & Hc).
    apply matches_star_set in H2. simpl. rewrite Hc, H2. split; [discriminate | reflexivity].
  - intros [Hne H]. destruct m as [|c m]; [congruence|].
    simpl in H. apply andb_true_iff in H. destruct H as [Hc Hm].
    change (c :: m) with ([c] ++ m).
    constructor; [constructor; exact Hc | apply matches_star_set; exact Hm].
Qed.

(** Text with a newline splits at its first newline. *)
Lemma has_newline_split x :
  has_newline x = true ->
  exists d post, x = d ++ NL :: post /\ forallb (in_charset CDot) d = true.
Proof.
  unfold has_newline. induction x as [|c x IH]; simpl; [discriminate|].
  destruct (is_newline c) eqn:E.
  - intros _. apply N.eqb_eq in E. subst c. exists [], x. auto.
  - simpl. intros H. destruct (IH H) as (d & post & -> & Hd).
    exists (c :: d), post. simpl. rewrite E, Hd. auto.
Qed.

Lemma has_newline_app x y :
  has_newline (x ++ y) = has_newline x || has_newline y.
Proof. apply existsb_app. Qed.

Lemma token_line_here_iff tok s :
  token_line_here tok s = true <->
  exists rest, s = tok ++ rest /\ has_newline rest = true.
Proof.
  unfold token_line_here. rewrite andb_true_iff, startswith_iff. split.
  - intros [[rest ->] H]. exists rest. split; [reflexivity|].
    rewrite skipn_app, skipn_all, Nat.sub_diag in H. exact H.
  - intros (rest & -> & H). split; [eauto|].
    rewrite skipn_app, skipn_all, Nat.sub_diag. exact H.
Qed.

Lemma token_then_newline_iff tok s :
  token_then_newline tok s = true <->
  exists pre rest, s = pre ++ tok ++ rest /\ has_newline rest = true.
Proof.
  induction s as [|c s IH]; cbn [token_then_newline].
  - rewrite orb_false_r, token_line_here_iff. split.
    + intros (rest & E & H). exists [], rest. auto.
    + intros ([|d pre] & rest & E & H); [eauto | discriminate].
  - rewrite orb_true_iff, token_line_here_iff, IH. split.
    + intros [(rest & E & H)|(pre & rest & -> & H)].
      * exists [], rest. auto.
      * exists (c :: pre), rest. auto.
    + intros ([|d pre] & rest & E & H); simpl in E.
      * left. eauto.
      * injection E as E1 E2. subst d s. right. eauto.
Qed.

(** The language of a section pattern: the token, a run of spaces, a
    run without newline, a newline. *)
Lemma section_matches tok m :
  matches (section_re tok) m <->
  exists ws d,
    m = raw tok ++ ws ++ d ++ [NL]
    /\ forallb isspace ws = true
    /\ forallb (in_charset CDot) d = true.
Proof.
  unfold section_re, spaces. rewrite matches_app. split.
  - intros (m1 & m2 & -> & H1 & H2). apply matches_chars in H1. subst m1.
    apply matches_cons in H2. destruct H2 as (ws & m3 & -> & Hws & H3).
    apply matches_cons in H3. destruct H3 as (d & m4 & -> & Hd & H4).
    apply matches_cons in H4. destruct H4 as (n & m5 & -> & Hn & H5).
    apply matches_nil in H5. subst m5.
    apply matches_Sym_inv in Hn. destruct Hn as (c & -> & Hc).
    simpl in Hc. apply N.eqb_eq in Hc. subst c.
    apply matches_star_set in Hws, Hd. exists ws, d. auto.
  - intros (ws & d & -> & Hws & Hd). exists (raw tok), (ws ++ d ++ [NL]).
    repeat split; [apply matches_chars; reflexivity|].
    apply matches_cons. exists ws, (d ++ [NL]).
    repeat split; [apply matches_star_set; exact Hws|].
    apply matches_cons. exists d, [NL].
    repeat split; [apply matches_star_set; exact Hd|].
    apply matches_cons. exists [NL], []. repeat split.
    + constructor. reflexivity.
    + apply matches_nil. reflexivity.
Qed.

(** The search for a section pattern is the scan for its token with a
    newline after it. *)
Theorem search_section tok s :
  search (section_re tok) s = token_then_newline (raw tok) s.
Proof.
  apply eq_true_iff_eq. rewrite search_iff, token_then_newline_iff. split.
  - intros (pre & m & post & -> & H). apply section_matches in H.
    destruct H as (ws & d & -> & _ & _).
    exists pre, ((ws ++ d ++ [NL]) ++ post). split.
    + rewrite <- !app_assoc. reflexivity.
    + rewrite !has_newline_app. simpl. rewrite !orb_true_r. reflexivity.
  - intros (pre & rest & -> & H). apply has_newline_split in H.
    destruct H as (d & post & -> & Hd).
    exists pre, (raw tok ++ [] ++ d ++ [NL]), post. split.
    + simpl. rewrite <- !app_assoc. reflexivity.
    + apply section_matches. exists [], d. auto.
Qed.

(** A line that begins with the token is one of the places the scan
    accepts. *)
Lemma line_scan_token_then_newline bol tok s :
  line_scan bol tok s = true -> token_then_newline tok s = true.
Proof.
  revert bol; induction s as [|c s IH]; intros bol;
    cbn [line_scan token_then_newline]; rewrite !orb_true_iff, ?andb_true_iff.
  - intros [[_ H]|H]; auto.
  - intros [[_ H]|H]; eauto.
Qed.

End PatternFacts.

(* ===================================================================== *)
(** ** Running the checker *)
(* ===================================================================== *)

Module CheckerFacts.
Import Re ReFacts PatternFacts.

(** The three patterns compile, so the loop never raises; it leaves the
    linter alone and returns the messages of the rules not found. *)
Lemma check_run (docstring : str) (st : Linter) :
  _check_docstring_format docstring st = (Ok (violations docstring), st).
Proof.
  unfold _check_docstring_format, required_sections. cbn [for_fold].
  unfold re_search. rewrite compile_purpose, compile_type, compile_trigger.
  unfold bind, ret, violations, missing.
  destruct (search (section_re "Purpose:") docstring);
    destruct (search (section_re "Filter Type:") docstring);
    destruct (search trigger_re docstring); reflexivity.
Qed.

Lemma for_each_add_message node args (l : list string) (st : Linter) :
  for_each l (fun error_message => add_message error_message node args) st
  = (Ok tt,
     st ++ map (fun m => {| msg_id := m; msg_node := node; msg_args := args |}) l).
Proof.
  revert st; induction l as [|m l IH]; intros st; cbn [for_each map].
  - unfold ret. rewrite app_nil_r. reflexivity.
  - unfold bind, add_message. rewrite IH, <- app_assoc. reflexivity.
Qed.

Lemma in_missing r msg d x :
  In x (missing r msg d) <-> search r d = false /\ x = msg.
Proof.
  unfold missing. destruct (search r d); simpl.
  - split; [tauto | intros [H _]; discriminate].
  - split; [intros [H|[]]; auto | intros [_ ->]; auto].
Qed.

Lemma in_violations d x :
  In x (violations d) <->
  (search (section_re "Purpose:") d = false /\ x = DOCSTRING_MISSING_PURPOSE)
  \/ (search (section_re "Filter Type:") d = false /\ x = DOCSTRING_MISSING_TYPE)
  \/ (search trigger_re d = false /\ x = DOCSTRING_MISSING_TRIGGER).
Proof. unfold violations. rewrite !in_app_iff, !in_missing. tauto. Qed.

(** Building a match of a sequence item by item. *)
Lemma step_lit t l m :
  matches (cat_list l) m -> matches (cat_list (chars t ++ l)) (t ++ m).
Proof.
  intros H. apply matches_app. exists t, m.
  repeat split; [apply matches_chars; reflexivity | exact H].
Qed.

Lemma step_item r l m1 m2 :
  matches r m1 -> matches (cat_list l) m2 ->
  matches (cat_list (r :: l)) (m1 ++ m2).
Proof. intros H1 H2. apply matches_cons. eauto. Qed.

Lemma step_last r m : matches r m -> matches (cat_list [r]) m.
Proof.
  intros H. rewrite <- (app_nil_r m). apply step_item; [exact H|].
  apply matches_nil. reflexivity.
Qed.

Lemma matches_spaces w : forallb isspace w = true -> matches spaces w.
Proof. intros H. apply matches_star_set. exact H. Qed.

Lemma matches_line_text x :
  x <> [] -> no_newline x = true -> matches line_text x.
Proof.
  unfold no_newline.
  intros Hne H. apply matches_plus_set. split; [exact Hne|].
  rewrite <- H. clear. induction x as [|c x IH]; [reflexivity|].
  cbn [forallb in_charset existsb]. rewrite IH, orb_false_r. reflexivity.
Qed.

(** The "NA" branch of the Trigger pattern. *)
Lemma search_trigger_NA pre ws post :
  forallb isspace ws = true ->
  search trigger_re (pre ++ raw "Trigger:" ++ ws ++ raw "NA" ++ post) = true.
Proof.
  intros Hws. apply search_iff.
  exists pre, (raw "Trigger:" ++ ws ++ raw "NA"), post. split.
  - rewrite <- !app_assoc. reflexivity.
  - unfold trigger_re. apply step_lit. apply step_item.
    + apply matches_spaces. exact Hws.
    + apply step_last. apply MAltL. apply matches_chars. reflexivity.
Qed.

(** The structured-list branch of the Trigger pattern: the three fields
    in order, every [w] a run of spaces of any length, the contents
    [r], [p] and [f] non-empty and free of newlines. *)
Lemma search_trigger_list pre w0 w1 w2 r w3 w4 w5 p w6 w7 w8 w9 w10 f post :
  forallb isspace w0 = true -> forallb isspace w1 = true ->
  forallb isspace w2 = true -> forallb isspace w3 = true ->
  forallb isspace w4 = true -> forallb isspace w5 = true ->
  forallb isspace w6 = true -> forallb isspace w7 = true ->
  forallb isspace w8 = true -> forallb isspace w9 = true ->
  forallb isspace w10 = true ->
  r <> [] -> no_newline r = true ->
  p <> [] -> no_newline p = true ->
  f <> [] -> no_newline f = true ->
  search trigger_re
    (pre ++ raw "Trigger:" ++ w0
     ++ raw "-" ++ w1 ++ raw "Repository:" ++ w2 ++ r ++ w3
     ++ raw "-" ++ w4 ++ raw "Path:" ++ w5 ++ p ++ w6
     ++ raw "-" ++ w7 ++ raw "Function" ++ w8 ++ raw "or" ++ w9
     ++ raw "Method:" ++ w10 ++ f ++ post) = true.
Proof.
  intros H0 H1 H2 H3 H4 H5 H6 H7 H8 H9 H10 Hr Hr' Hp Hp' Hf Hf'.
  apply search_iff.
  exists pre,
    (raw "Trigger:" ++ w0
     ++ raw "-" ++ w1 ++ raw "Repository:" ++ w2 ++ r ++ w3
     ++ raw "-" ++ w4 ++ raw "Path:" ++ w5 ++ p ++ w6
     ++ raw "-" ++ w7 ++ raw "Function" ++ w8 ++ raw "or" ++ w9
     ++ raw "Method:" ++ w10 ++ f), post.
  split; [rewrite <- !app_assoc; reflexivity|].
  unfold trigger_re. apply step_lit.
  apply step_item; [apply matches_spaces; assumption|].
  apply step_last. apply MAltR.
  unfold trigger_list_items. cbn [app].
  repeat first
    [ apply step_lit
    | apply step_last; apply matches_line_text; assumption
    | apply step_item;
      [ first [ apply matches_spaces; assumption
              | apply matches_line_text; assumption ] | ] ].
Qed.

End CheckerFacts.

(* ===================================================================== *)
(** ** Properties of the checker *)
(* ===================================================================== *)

Import Re ReFacts PatternFacts CheckerFacts.

Unset Implicit Arguments.

(** *** The Purpose rule *)

(** The rule as the code applies it is weaker than a line that begins
    with the token: wherever a line begins with it, the pattern is found. *)
Lemma line_begins_with_found (tok : string) (d : str) :
  line_begins_with (raw tok) d = true -> search (section_re tok) d = true.
Proof.
  intros H. rewrite search_section.
  apply line_scan_token_then_newline with (bol := true). exact H.
Qed.

(** The reading of the specification is not empty: a line of the text may
    begin with the token after the first line, and an indented token is
    not at the beginning of its line. *)
Example line_begins_with_second_line :
  line_begins_with (raw "Purpose:") (lit "A filter.\nPurpose: x\n") = true
  /\ line_begins_with (raw "Purpose:") (lit "A filter.\n  Purpose: x\n") = false
  /\ line_begins_with (raw "Purpose:") (lit "Purpose: x") = false.
Proof. repeat split; reflexivity. Qed.

(** C1, as stated, fails: in the docstring below the token [Purpose:]
    stands in the middle of a line, no line begins with it, and yet the
    validation does not report the purpose as missing. *)
Lemma purpose_rule_not_line_initial :
  exists l,
    _check_docstring_format (lit "Serves no Purpose: none\n") []
    = (Ok l, [])
    /\ line_begins_with (raw "Purpose:") (lit "Serves no Purpose: none\n")
       = false
    /\ ~ In DOCSTRING_MISSING_PURPOSE l.
Proof.
  eexists. split; [apply check_run|]. split; [reflexivity|].
  vm_compute. intros [H|[H|[]]]; discriminate.
Qed.

(** C1, amended: for every docstring, the validation reports
    [filter-docstring-missing-purpose] exactly when the text has no
    occurrence of the token [Purpose:], at any column of a line, with a
    newline somewhere after it. *)
Theorem missing_purpose_iff (docstring : str) (st : Linter) :
  exists l,
    _check_docstring_format docstring st = (Ok l, st)
    /\ (In DOCSTRING_MISSING_PURPOSE l
        <-> token_then_newline (raw "Purpose:") docstring = false).
Proof.
  exists (violations docstring). split; [apply check_run|].
  rewrite in_violations, search_section. split.
  - intros [[H _]|[[_ H]|[_ H]]]; [exact H | discriminate | discriminate].
  - intros H. left. auto.
Qed.

(** C2, as stated, fails: the docstring below has no line that begins
    with [Purpose:], and the result holds the purpose message zero times. *)
Lemma purpose_line_absent_not_reported :
  exists l,
    _check_docstring_format
      (lit "\n    A filter. Purpose: see below.\n    ") []
    = (Ok l, [])
    /\ line_begins_with (raw "Purpose:")
         (lit "\n    A filter. Purpose: see below.\n    ") = false
    /\ count_occ string_dec l DOCSTRING_MISSING_PURPOSE = 0.
Proof.
  eexists. split; [apply check_run|]. split; reflexivity.
Qed.

(** C2, amended: for every docstring in which no occurrence of the token
    [Purpose:], at any column, is followed by a newline, the result holds
    [filter-docstring-missing-purpose] exactly once, whatever the text
    says about the Filter Type and the Trigger. *)
Theorem missing_purpose_once (docstring : str) (st : Linter) :
  token_then_newline (raw "Purpose:") docstring = false ->
  exists l,
    _check_docstring_format docstring st = (Ok l, st)
    /\ count_occ string_dec l DOCSTRING_MISSING_PURPOSE = 1.
Proof.
  intros H. exists (violations docstring). split; [apply check_run|].
  unfold violations, missing. rewrite search_section, H.
  destruct (search (section_re "Filter Type:") docstring);
    destruct (search trigger_re docstring); reflexivity.
Qed.

Lemma missing_purpose_once_witness :
  token_then_newline (raw "Purpose:")
    (lit "Filter Type:\n  org.example.v1\n\nTrigger:\nNA\n") = false
  /\ exists l,
       _check_docstring_format
         (lit "Filter Type:\n  org.example.v1\n\nTrigger:\nNA\n") []
       = (Ok l, [])
       /\ count_occ string_dec l DOCSTRING_MISSING_PURPOSE = 1.
Proof.
  split; [reflexivity|].
  apply (missing_purpose_once
           (lit "Filter Type:\n  org.example.v1\n\nTrigger:\nNA\n") []).
  reflexivity.
Defined.

(** *** Concrete docstrings *)

(** C3: the validation of the empty docstring returns the three messages
    in the order purpose, type, trigger. *)
Theorem check_empty_docstring (st : Linter) :
  _check_docstring_format (lit "") st
  = (Ok [DOCSTRING_MISSING_PURPOSE; DOCSTRING_MISSING_TYPE;
         DOCSTRING_MISSING_TRIGGER], st).
Proof. rewrite check_run. reflexivity. Qed.

(** C4: the validation of the docstring with the three sections and the
    Trigger list, one field per line, returns the empty list. *)
Theorem check_complete_docstring (st : Linter) :
  _check_docstring_format
    (lit "Purpose:\nDoes X.\n\nFilter Type:\n  org.example.v1\n\nTrigger:\n- Repository: r\n- Path: p\n- Function or Method: f\n")
    st
  = (Ok [], st).
Proof.
  rewrite check_run. vm_compute. reflexivity.
Qed.

(** *** Shape of the result *)

(** C5: for every docstring, the messages of the result stand in the rule
    order: purpose before type before trigger, wherever the sections
    stand in the text. *)
Theorem check_result_in_rule_order (docstring : str) (st : Linter) :
  exists l,
    _check_docstring_format docstring st = (Ok l, st)
    /\ StronglySorted reported_before l.
Proof.
  exists (violations docstring). split; [apply check_run|].
  unfold violations, missing.
  destruct (search (section_re "Purpose:") docstring);
    destruct (search (section_re "Filter Type:") docstring);
    destruct (search trigger_re docstring); simpl;
    repeat constructor.
Qed.

(** C6: for every docstring, the validation returns a list and raises
    nothing; the list has at most three elements, each one of the three
    messages, none twice. *)
Theorem check_returns_well_formed (docstring : str) (st : Linter) :
  exists l,
    _check_docstring_format docstring st = (Ok l, st)
    /\ List.length l <= 3
    /\ NoDup l
    /\ (forall x, In x l ->
          x = DOCSTRING_MISSING_PURPOSE \/ x = DOCSTRING_MISSING_TYPE
          \/ x = DOCSTRING_MISSING_TRIGGER).
Proof.
  exists (violations docstring). split; [apply check_run|].
  split; [|split].
  - unfold violations, missing.
    destruct (search (section_re "Purpose:") docstring);
      destruct (search (section_re "Filter Type:") docstring);
      destruct (search trigger_re docstring); simpl; lia.
  - unfold violations, missing.
    destruct (search (section_re "Purpose:") docstring);
      destruct (search (section_re "Filter Type:") docstring);
      destruct (search trigger_re docstring); simpl;
      repeat (constructor; [simpl; intuition discriminate|]); constructor.
  - intros x Hx. apply in_violations in Hx. tauto.
Qed.

(** C7: the validation is a function of the text alone and leaves the
    linter as it found it: a second call on the same text, after the
    first, returns the same result, and so does a call from any other
    linter state. *)
Theorem check_deterministic_stateless (docstring : str) (st st' : Linter) :
  let first := _check_docstring_format docstring st in
  let second := _check_docstring_format docstring (snd first) in
  fst second = fst first
  /\ snd first = st
  /\ snd second = st
  /\ fst (_check_docstring_format docstring st') = fst first.
Proof.
  cbv zeta. rewrite !check_run. repeat split; reflexivity.
Qed.

(** *** The pylint callback *)

(** C8: [visit_classdef] adds no message for a class that is not a subtype
    of [openedx_filters.tooling.OpenEdxPublicFilter], and none for a class
    whose name is exactly [OpenEdxPublicFilter]; for any other class it
    adds, in order, one message per violation the validation returns for
    the class docstring, each on the class node and with the class name
    as its argument. *)
Theorem visit_classdef_selects_and_reports (node : ClassDef) (st : Linter) :
  (is_subtype_of node BASE_FILTER = false ->
   visit_classdef node st = (Ok tt, st))
  /\ (name node = lit "OpenEdxPublicFilter" ->
      visit_classdef node st = (Ok tt, st))
  /\ (is_subtype_of node BASE_FILTER = true ->
      name node <> lit "OpenEdxPublicFilter" ->
      exists l,
        _check_docstring_format (docstring_of node) st = (Ok l, st)
        /\ visit_classdef node st = (Ok tt, st ++ map (diagnostic node) l)).
Proof.
  unfold visit_classdef, BASE_FILTER. repeat split.
  - intros ->. reflexivity.
  - intros E. apply PyStrFacts.eqb_eq in E. rewrite E.
    destruct (is_subtype_of node _); reflexivity.
  - intros -> Hne. exists (violations (docstring_of node)).
    split; [apply check_run|]. cbn [negb].
    destruct (PyStr.eqb (name node) (lit "OpenEdxPublicFilter")) eqn:E.
    + apply PyStrFacts.eqb_eq in E. contradiction.
    + fold (docstring_of node). unfold bind. rewrite check_run.
      destruct (violations (docstring_of node)) as [|m l] eqn:V.
      * unfold ret. simpl. rewrite app_nil_r. reflexivity.
      * apply for_each_add_message.
Qed.

Lemma visit_classdef_selects_and_reports_witness :
  visit_classdef undocumented_filter []
  = (Ok tt,
     [ diagnostic undocumented_filter DOCSTRING_MISSING_PURPOSE;
       diagnostic undocumented_filter DOCSTRING_MISSING_TYPE;
       diagnostic undocumented_filter DOCSTRING_MISSING_TRIGGER ]).
Proof.
  destruct (visit_classdef_selects_and_reports undocumented_filter [])
    as (_ & _ & H).
  destruct H as (l & Hl & Hv); [reflexivity | discriminate |].
  rewrite Hv. rewrite check_run in Hl. injection Hl as <-. reflexivity.
Defined.

(** *** The Trigger rule *)

(** C9: a docstring that holds [Trigger:] and then the fields
    [- Repository:], [- Path:] and [- Function or Method:], each with a
    content that is not empty and has no newline, does not get the
    trigger message, whatever runs of spaces [w0] to [w10] stand between
    the tokens; the runs need no newline, so the fields may share a line. *)
Theorem trigger_list_any_spacing
    (pre w0 w1 w2 r w3 w4 w5 p w6 w7 w8 w9 w10 f post : str) (st : Linter) :
  forallb isspace w0 = true -> forallb isspace w1 = true ->
  forallb isspace w2 = true -> forallb isspace w3 = true ->
  forallb isspace w4 = true -> forallb isspace w5 = true ->
  forallb isspace w6 = true -> forallb isspace w7 = true ->
  forallb isspace w8 = true -> forallb isspace w9 = true ->
  forallb isspace w10 = true ->
  r <> [] -> no_newline r = true ->
  p <> [] -> no_newline p = true ->
  f <> [] -> no_newline f = true ->
  exists l,
    _check_docstring_format
      (pre ++ raw "Trigger:" ++ w0
       ++ raw "-" ++ w1 ++ raw "Repository:" ++ w2 ++ r ++ w3
       ++ raw "-" ++ w4 ++ raw "Path:" ++ w5 ++ p ++ w6
       ++ raw "-" ++ w7 ++ raw "Function" ++ w8 ++ raw "or" ++ w9
       ++ raw "Method:" ++ w10 ++ f ++ post) st
    = (Ok l, st)
    /\ ~ In DOCSTRING_MISSING_TRIGGER l.
Proof.
  intros. eexists. split; [apply check_run|].
  rewrite in_violations, search_trigger_list by assumption.
  intros [[_ H']|[[_ H']|[H' _]]]; discriminate.
Qed.

Lemma trigger_list_any_spacing_witness :
  exists l,
    _check_docstring_format
      (lit "Trigger: - Repository: r - Path: p - Function or Method: f") []
    = (Ok l, [])
    /\ ~ In DOCSTRING_MISSING_TRIGGER l.
Proof.
  apply (trigger_list_any_spacing
           [] (lit " ") (lit " ") (lit " ") (lit "r") (lit " ")
           (lit " ") (lit " ") (lit "p") (lit " ")
           (lit " ") (lit " ") (lit " ") (lit " ") (lit "f") [] []);
    first [reflexivity | discriminate].
Defined.

(** C10: the [NA] branch of the Trigger rule asks for the two characters
    only: a docstring that holds [Trigger:], a run of spaces of any
    length and then [NA] does not get the trigger message, whatever text
    follows the [NA]. *)
Theorem trigger_NA_prefix (pre ws post : str) (st : Linter) :
  forallb isspace ws = true ->
  exists l,
    _check_docstring_format (pre ++ raw "Trigger:" ++ ws ++ raw "NA" ++ post) st
    = (Ok l, st)
    /\ ~ In DOCSTRING_MISSING_TRIGGER l.
Proof.
  intros Hws. eexists. split; [apply check_run|].
  rewrite in_violations, search_trigger_NA by assumption.
  intros [[_ H']|[[_ H']|[H' _]]]; discriminate.
Qed.

Lemma trigger_NA_prefix_witness :
  forallb isspace (lit " ") = true
  /\ exists l,
       _check_docstring_format (lit "Trigger: NAME") [] = (Ok l, [])
       /\ ~ In DOCSTRING_MISSING_TRIGGER l.
Proof.
  split; [reflexivity|].
  apply (trigger_NA_prefix [] (lit " ") (lit "ME") []). reflexivity.
Defined.

(* ===================================================================== *)
(** ** More on the languages of the patterns *)
(* ===================================================================== *)

Module RuleFacts.
Import Re ReFacts PatternFacts CheckerFacts.

Lemma contains_iff (tok s : str) :
  contains tok s = true <-> exists pre post, s = pre ++ tok ++ post.
Proof.
  induction s as [|c s IH]; cbn [contains].
  - rewrite orb_false_r, startswith_iff. split.
    + intros [rest E]. exists [], rest. exact E.
    + intros ([|d pre] & post & E); [eauto | discriminate].
  - rewrite orb_true_iff, startswith_iff, IH. split.
    + intros [[rest E]|(pre & post & ->)].
      * exists [], rest. exact E.
      * exists (c :: pre), post. reflexivity.
    + intros ([|d pre] & post & E); simpl in E.
      * left. eauto.
      * injection E as E1 E2. subst d s. right. eauto.
Qed.

(** A text with a match somewhere inside it has a match. *)
Lemma search_embed (r : regex) (pre d post : str) :
  search r d = true -> search r (pre ++ d ++ post) = true.
Proof.
  rewrite !search_iff. intros (a & m & b & -> & H).
  exists (pre ++ a), m, (b ++ post). split; [|exact H].
  rewrite <- !app_assoc. reflexivity.
Qed.

Lemma search_concat (r : regex) (x : str) (l : list str) :
  In x l -> search r x = true -> search r (List.concat l) = true.
Proof.
  intros Hin H. apply in_split in Hin. destruct Hin as (l1 & l2 & ->).
  rewrite concat_app. cbn [List.concat]. apply search_embed. exact H.
Qed.

(** Without a newline no section pattern is found. *)
Lemma token_then_newline_needs_newline (tok s : str) :
  has_newline s = false -> token_then_newline tok s = false.
Proof.
  intros H. apply not_true_is_false. intros T.
  apply token_then_newline_iff in T. destruct T as (pre & rest & -> & Hn).
  rewrite !has_newline_app, Hn, !orb_true_r in H. discriminate.
Qed.

(** Reading a match of a sequence item by item. *)
Lemma inv_lit t l m :
  matches (cat_list (chars t ++ l)) m ->
  exists m', m = t ++ m' /\ matches (cat_list l) m'.
Proof.
  intros H. apply matches_app in H. destruct H as (m1 & m2 & -> & H1 & H2).
  apply matches_chars in H1. subst m1. eauto.
Qed.

Lemma inv_item r l m :
  matches (cat_list (r :: l)) m ->
  exists m1 m2, m = m1 ++ m2 /\ matches r m1 /\ matches (cat_list l) m2.
Proof. apply matches_cons. Qed.

Lemma inv_last r m : matches (cat_list [r]) m -> matches r m.
Proof.
  intros H. apply matches_cons in H. destruct H as (m1 & m2 & -> & H1 & H2).
  apply matches_nil in H2. subst m2. rewrite app_nil_r. exact H1.
Qed.

Lemma spaces_blank w : matches spaces w -> blank w.
Proof. intros H. apply matches_star_set in H. exact H. Qed.

Lemma line_text_field x : matches line_text x -> field_text x.
Proof.
  intros H. apply matches_plus_set in H. destruct H as [Hne H].
  split; [exact Hne|]. unfold no_newline. rewrite <- H. clear.
  induction x as [|c x IH]; [reflexivity|].
  cbn [forallb in_charset existsb]. rewrite IH, orb_false_r. reflexivity.
Qed.

Ltac read_sequence H :=
  repeat
    match type of H with
    | matches (cat_list (chars _ ++ _)) _ =>
        apply inv_lit in H; destruct H as (? & -> & H)
    | matches (cat_list [_]) _ => apply inv_last in H
    | matches (cat_list (_ :: _)) _ =>
        let I := fresh "I" in
        apply inv_item in H; destruct H as (? & ? & -> & I & H)
    end.

(** The language of the Trigger pattern. *)
Lemma trigger_matches m :
  matches trigger_re m <->
  exists w0 body, m = raw "Trigger:" ++ w0 ++ body /\ blank w0 /\ trigger_body body.
Proof.
  split.
  - unfold trigger_re. intros H. read_sequence H.
    apply matches_Alt_inv in H. destruct H as [H|H].
    + apply matches_chars in H. subst.
      eexists _, _. split; [reflexivity|]. split; [apply spaces_blank; assumption|].
      constructor.
    + unfold trigger_list_items in H. cbn [app] in H. read_sequence H.
      eexists _, _. split; [reflexivity|]. split; [apply spaces_blank; assumption|].
      apply body_list;
        first [ apply spaces_blank; assumption
              | apply line_text_field; assumption ].
  - intros (w0 & body & -> & H0 & Hb). unfold trigger_re.
    apply step_lit. apply step_item; [apply matches_spaces; exact H0|].
    apply step_last. destruct Hb as [|w1 w2 r w3 w4 w5 p w6 w7 w8 w9 w10 f
        H1 H2 [Hr Hr'] H3 H4 H5 [Hp Hp'] H6 H7 H8 H9 H10 [Hf Hf']].
    + apply MAltL. apply matches_chars. reflexivity.
    + apply MAltR. unfold trigger_list_items. cbn [app].
      repeat first
        [ apply step_lit
        | apply step_last; apply matches_line_text; assumption
        | apply step_item;
          [ first [ apply matches_spaces; assumption
                  | apply matches_line_text; assumption ] | ] ].
Qed.

(** The search for the Trigger pattern finds exactly the texts that hold
    a Trigger section. *)
Lemma search_trigger_iff d :
  search trigger_re d = true <-> trigger_section_present d.
Proof.
  rewrite search_iff. unfold trigger_section_present. split.
  - intros (pre & m & post & -> & H). apply trigger_matches in H.
    destruct H as (w0 & body & -> & H0 & Hb).
    exists pre, w0, body, post. rewrite <- !app_assoc. auto.
  - intros (pre & w0 & body & post & -> & H0 & Hb).
    exists pre, (raw "Trigger:" ++ w0 ++ body), post. split.
    + rewrite <- !app_assoc. reflexivity.
    + apply trigger_matches. eauto.
Qed.

(** The tokens a text with a Trigger section holds. *)
Lemma trigger_section_tokens d :
  trigger_section_present d ->
  contains (raw "Trigger:") d = true
  /\ (contains (raw "NA") d = true
      \/ (contains (raw "Repository:") d = true
          /\ contains (raw "Path:") d = true
          /\ contains (raw "Method:") d = true)).
Proof.
  intros (pre & w0 & body & post & -> & _ & Hb). split.
  - apply contains_iff. eauto.
  - destruct Hb as [|w1 w2 r w3 w4 w5 p w6 w7 w8 w9 w10 f].
    + left. apply contains_iff. exists (pre ++ raw "Trigger:" ++ w0), post.
      rewrite <- !app_assoc. reflexivity.
    + right. repeat split; apply contains_iff.
      * exists (pre ++ raw "Trigger:" ++ w0 ++ raw "-" ++ w1).
        eexists. rewrite <- !app_assoc. reflexivity.
      * exists (pre ++ raw "Trigger:" ++ w0 ++ raw "-" ++ w1
                ++ raw "Repository:" ++ w2 ++ r ++ w3 ++ raw "-" ++ w4).
        eexists. rewrite <- !app_assoc. reflexivity.
      * exists (pre ++ raw "Trigger:" ++ w0 ++ raw "-" ++ w1
                ++ raw "Repository:" ++ w2 ++ r ++ w3 ++ raw "-" ++ w4
                ++ raw "Path:" ++ w5 ++ p ++ w6 ++ raw "-" ++ w7
                ++ raw "Function" ++ w8 ++ raw "or" ++ w9).
        eexists. rewrite <- !app_assoc. reflexivity.
Qed.

End RuleFacts.

(* ===================================================================== *)
(** ** Running the callback *)
(* ===================================================================== *)

Module VisitFacts.
Import Re ReFacts PatternFacts CheckerFacts.

Lemma visit_classdef_run (node : ClassDef) (st : Linter) :
  visit_classdef node st
  = (Ok tt,
     st ++ (if selected node
            then map (diagnostic node) (violations (docstring_of node))
            else [])).
Proof.
  unfold visit_classdef, selected, BASE_FILTER.
  destruct (is_subtype_of node _); cbn [negb andb].
  - destruct (PyStr.eqb (name node) (lit "OpenEdxPublicFilter")); cbn [negb].
    + unfold ret. rewrite app_nil_r. reflexivity.
    + fold (docstring_of node). unfold bind. rewrite check_run.
      destruct (violations (docstring_of node)) as [|m l].
      * unfold ret. simpl. rewrite app_nil_r. reflexivity.
      * apply for_each_add_message.
  - unfold ret. rewrite app_nil_r. reflexivity.
Qed.

Lemma diagnostics_of_run (node : ClassDef) :
  diagnostics_of node
  = if selected node
    then map (diagnostic node) (violations (docstring_of node))
    else [].
Proof. unfold diagnostics_of. rewrite visit_classdef_run. reflexivity. Qed.

Lemma violations_length d : List.length (violations d) <= 3.
Proof.
  unfold violations, missing.
  destruct (search (section_re "Purpose:") d);
    destruct (search (section_re "Filter Type:") d);
    destruct (search trigger_re d); simpl; lia.
Qed.

Lemma violations_empty : violations (lit "") =
  [DOCSTRING_MISSING_PURPOSE; DOCSTRING_MISSING_TYPE; DOCSTRING_MISSING_TRIGGER].
Proof. reflexivity. Qed.

End VisitFacts.

(* ===================================================================== *)
(** ** Further properties of the checker *)
(* ===================================================================== *)

Import RuleFacts VisitFacts.

(** *** The rules one by one *)

(** X1: for every docstring, the validation reports
    [filter-docstring-missing-type] exactly when the text has no
    occurrence of the token [Filter Type:], at any column, with a newline
    somewhere after it. *)
Theorem missing_type_iff (docstring : str) (st : Linter) :
  exists l,
    _check_docstring_format docstring st = (Ok l, st)
    /\ (In DOCSTRING_MISSING_TYPE l
        <-> token_then_newline (raw "Filter Type:") docstring = false).
Proof.
  exists (violations docstring). split; [apply check_run|].
  rewrite in_violations, !search_section. split.
  - intros [[_ H]|[[H _]|[_ H]]]; [discriminate | exact H | discriminate].
  - intros H. right. left. auto.
Qed.

(** X2: for every docstring, the validation reports
    [filter-docstring-missing-trigger] exactly when the text holds no
    Trigger section: the token [Trigger:], a run of spaces, and then
    either [NA] or the fields [- Repository:], [- Path:] and
    [- Function or Method:] in this order, each with a content of one
    character or more on one line, with runs of spaces between the
    tokens. *)
Theorem missing_trigger_iff (docstring : str) (st : Linter) :
  exists l,
    _check_docstring_format docstring st = (Ok l, st)
    /\ (In DOCSTRING_MISSING_TRIGGER l
        <-> ~ trigger_section_present docstring).
Proof.
  exists (violations docstring). split; [apply check_run|].
  rewrite in_violations, <- search_trigger_iff. split.
  - intros [[_ H]|[[_ H]|[H _]]]; [discriminate | discriminate |].
    rewrite H. discriminate.
  - intros H. right. right. split; [|reflexivity].
    apply not_true_is_false. exact H.
Qed.

(** X3: the validation returns the empty list exactly for the docstrings
    that hold the token [Purpose:] with a newline after it, the token
    [Filter Type:] with a newline after it, and a Trigger section. *)
Theorem check_accepts_iff (docstring : str) (st : Linter) :
  _check_docstring_format docstring st = (Ok [], st)
  <-> token_then_newline (raw "Purpose:") docstring = true
      /\ token_then_newline (raw "Filter Type:") docstring = true
      /\ trigger_section_present docstring.
Proof.
  rewrite check_run, <- search_trigger_iff, <- !search_section.
  unfold violations, missing.
  destruct (search (section_re "Purpose:") docstring);
    destruct (search (section_re "Filter Type:") docstring);
    destruct (search trigger_re docstring); simpl;
    split; try (intros E; discriminate E); try (intros (A & B & C); discriminate);
    auto.
Qed.

(** *** Text around and between the sections *)

(** X4: text added before and after a docstring never adds a violation:
    every message reported for the longer text is reported for the
    docstring itself. *)
Theorem check_embed_monotone (pre docstring post : str) (st : Linter) :
  exists l l',
    _check_docstring_format docstring st = (Ok l, st)
    /\ _check_docstring_format (pre ++ docstring ++ post) st = (Ok l', st)
    /\ incl l' l.
Proof.
  exists (violations docstring), (violations (pre ++ docstring ++ post)).
  split; [apply check_run|]. split; [apply check_run|].
  intros x Hx. apply in_violations in Hx. apply in_violations.
  assert (mono : forall r, search r (pre ++ docstring ++ post) = false ->
                           search r docstring = false).
  { intros r H. apply not_true_is_false. intros T.
    rewrite (search_embed r pre docstring post T) in H. discriminate. }
  destruct Hx as [[H E]|[[H E]|[H E]]]; apply mono in H; auto.
Qed.

(** X5: three blocks of text, one that satisfies the Purpose rule, one the
    Filter Type rule and one the Trigger rule, joined in any of their six
    orders, make a docstring with no violation. *)
Theorem check_sections_any_order
    (p t g : str) (blocks : list str) (st : Linter) :
  Permutation blocks [p; t; g] ->
  token_then_newline (raw "Purpose:") p = true ->
  token_then_newline (raw "Filter Type:") t = true ->
  trigger_section_present g ->
  _check_docstring_format (List.concat blocks) st = (Ok [], st).
Proof.
  intros HP Hp Ht Hg. rewrite check_run. unfold violations, missing.
  assert (inb : forall x, In x [p; t; g] -> In x blocks).
  { intros x Hx. apply Permutation_in with (l := [p; t; g]);
      [apply Permutation_sym; exact HP | exact Hx]. }
  rewrite <- search_section in Hp, Ht. apply search_trigger_iff in Hg.
  rewrite (search_concat _ p blocks), (search_concat _ t blocks),
    (search_concat _ g blocks); try assumption; try reflexivity;
    apply inb; simpl; auto.
Qed.

Lemma check_sections_any_order_witness :
  _check_docstring_format
    (lit "Trigger: NA\nFilter Type: org.example.v1\nPurpose: Does X.\n") []
  = (Ok [], []).
Proof.
  apply (check_sections_any_order
           (lit "Purpose: Does X.\n") (lit "Filter Type: org.example.v1\n")
           (lit "Trigger: NA\n")
           [lit "Trigger: NA\n"; lit "Filter Type: org.example.v1\n";
            lit "Purpose: Does X.\n"] []).
  - apply (Permutation_rev
             [lit "Trigger: NA\n"; lit "Filter Type: org.example.v1\n";
              lit "Purpose: Does X.\n"]).
  - reflexivity.
  - reflexivity.
  - exists [], (lit " "), (raw "NA"), (lit "\n").
    split; [reflexivity|]. split; [reflexivity | constructor].
Defined.

(** X6: a docstring without a newline is reported for both the purpose
    and the type, whatever it says: the two section patterns end in a
    newline. *)
Theorem check_one_line_docstring (docstring : str) (st : Linter) :
  has_newline docstring = false ->
  exists l,
    _check_docstring_format docstring st = (Ok l, st)
    /\ In DOCSTRING_MISSING_PURPOSE l
    /\ In DOCSTRING_MISSING_TYPE l.
Proof.
  intros H. exists (violations docstring). split; [apply check_run|].
  rewrite !in_violations, !search_section.
  rewrite !(token_then_newline_needs_newline _ _ H). auto.
Qed.

Lemma check_one_line_docstring_witness :
  has_newline (lit "Purpose: Does X. Filter Type: t. Trigger: NA") = false
  /\ exists l,
       _check_docstring_format
         (lit "Purpose: Does X. Filter Type: t. Trigger: NA") []
       = (Ok l, [])
       /\ In DOCSTRING_MISSING_PURPOSE l
       /\ In DOCSTRING_MISSING_TYPE l.
Proof.
  split; [reflexivity|].
  apply (check_one_line_docstring
           (lit "Purpose: Does X. Filter Type: t. Trigger: NA") []).
  reflexivity.
Defined.

(** X7: a docstring that lacks the token [Trigger:], or that lacks [NA]
    and one of the field names [Repository:], [Path:] and [Method:], is
    reported for the trigger. *)
Theorem check_trigger_tokens_missing (docstring : str) (st : Linter) :
  trigger_tokens_present docstring = false ->
  exists l,
    _check_docstring_format docstring st = (Ok l, st)
    /\ In DOCSTRING_MISSING_TRIGGER l.
Proof.
  intros H. exists (violations docstring). split; [apply check_run|].
  apply in_violations. right. right. split; [|reflexivity].
  apply not_true_is_false. intros T. apply search_trigger_iff in T.
  apply trigger_section_tokens in T. unfold trigger_tokens_present in H.
  destruct T as [T0 [T|(T1 & T2 & T3)]].
  - rewrite T0, T in H. discriminate.
  - rewrite T0, T1, T2, T3, orb_true_r in H. discriminate.
Qed.

Lemma check_trigger_tokens_missing_witness :
  trigger_tokens_present (lit "Trigger:\n- Repository: r\n- Path: p\n") = false
  /\ exists l,
       _check_docstring_format
         (lit "Trigger:\n- Repository: r\n- Path: p\n") []
       = (Ok l, [])
       /\ In DOCSTRING_MISSING_TRIGGER l.
Proof.
  split; [reflexivity|].
  apply (check_trigger_tokens_missing
           (lit "Trigger:\n- Repository: r\n- Path: p\n") []).
  reflexivity.
Defined.

(** *** The callback and the linter *)

(** X8: for every class node and every linter state, [visit_classdef]
    returns without raising and only appends to the messages: what the
    linter held stays in front, at most three messages are added, each on
    the node, with the class name as its one argument and a message name
    that the decorator of the method lists; and the added messages do not
    depend on what the linter held. *)
Theorem visit_classdef_appends (node : ClassDef) (st : Linter) :
  exists added,
    visit_classdef node st = (Ok tt, st ++ added)
    /\ List.length added <= 3
    /\ Forall (fun m =>
                 msg_node m = node /\ msg_args m = [name node]
                 /\ In (msg_id m) visit_classdef_checks_msgs) added
    /\ added = diagnostics_of node.
Proof.
  exists (diagnostics_of node). rewrite diagnostics_of_run.
  split; [apply visit_classdef_run|].
  destruct (selected node); [|repeat split; [simpl; lia | constructor]].
  split; [rewrite length_map; apply violations_length|].
  split; [|reflexivity].
  apply Forall_forall. intros m Hm. apply in_map_iff in Hm.
  destruct Hm as (x & <- & Hx). repeat split.
  apply in_violations in Hx. simpl.
  destruct Hx as [[_ ->]|[[_ ->]|[_ ->]]]; auto.
Qed.

(** X9: a class that passes the two guards and has no docstring, or an
    empty one, gets the three messages, in the rule order. *)
Theorem visit_classdef_no_docstring (node : ClassDef) (st : Linter) :
  is_subtype_of node BASE_FILTER = true ->
  name node <> lit "OpenEdxPublicFilter" ->
  docstring_of node = lit "" ->
  visit_classdef node st
  = (Ok tt,
     st ++ [ diagnostic node DOCSTRING_MISSING_PURPOSE;
             diagnostic node DOCSTRING_MISSING_TYPE;
             diagnostic node DOCSTRING_MISSING_TRIGGER ]).
Proof.
  intros Hsub Hname Hdoc. rewrite visit_classdef_run. unfold selected.
  rewrite Hsub, Hdoc, violations_empty.
  destruct (PyStr.eqb (name node) (lit "OpenEdxPublicFilter")) eqn:E.
  - apply PyStrFacts.eqb_eq in E. contradiction.
  - reflexivity.
Qed.

Lemma visit_classdef_no_docstring_witness :
  visit_classdef
    {| name := lit "CourseEnrollmentStarted";
       is_subtype_of := fun _ => true;
       doc_node := Some {| value := lit "" |} |} []
  = (Ok tt,
     [ diagnostic
         {| name := lit "CourseEnrollmentStarted";
            is_subtype_of := fun _ => true;
            doc_node := Some {| value := lit "" |} |}
         DOCSTRING_MISSING_PURPOSE;
       diagnostic
         {| name := lit "CourseEnrollmentStarted";
            is_subtype_of := fun _ => true;
            doc_node := Some {| value := lit "" |} |}
         DOCSTRING_MISSING_TYPE;
       diagnostic
         {| name := lit "CourseEnrollmentStarted";
            is_subtype_of := fun _ => true;
            doc_node := Some {| value := lit "" |} |}
         DOCSTRING_MISSING_TRIGGER ]).
Proof.
  apply (visit_classdef_no_docstring
           {| name := lit "CourseEnrollmentStarted";
              is_subtype_of := fun _ => true;
              doc_node := Some {| value := lit "" |} |} []);
    [reflexivity | discriminate | reflexivity].
Defined.

(** X10: the calls of [visit_classdef] on the classes of a module, one
    after the other, never raise and leave the linter with what it held
    followed by the messages of each class in turn: a class is judged on
    its own, whatever was visited before it. *)
Theorem visit_classdef_sequence (nodes : list ClassDef) (st : Linter) :
  for_each nodes visit_classdef st
  = (Ok tt, st ++ flat_map diagnostics_of nodes).
Proof.
  revert st. induction nodes as [|node nodes IH]; intros st; cbn [for_each flat_map].
  - unfold ret. rewrite app_nil_r. reflexivity.
  - unfold bind. rewrite visit_classdef_run, IH, <- app_assoc, <- diagnostics_of_run.
    reflexivity.
Qed.

(** *** The message table *)

Lemma append_cancel (s a b : string) :
  (s ++ a)%string = (s ++ b)%string -> a = b.
Proof.
  induction s as [|c s IH]; simpl; [auto|].
  intros E. injection E as E. auto.
Qed.

(** X11: for every [BASE_ID], the three message ids of [msgs] are
    different from one another, so the dict holds its three entries, and
    so are the three symbols, so a symbol names one entry. *)
Theorem msgs_keys_distinct (BASE_ID : Z) :
  NoDup (map fst (msgs BASE_ID))
  /\ NoDup (map (fun '(_, (_, symbol, _)) => symbol) (msgs BASE_ID)).
Proof.
  split.
  - cbn [msgs map fst].
    repeat (constructor;
            [ cbn [In]; intros H;
              repeat (destruct H as [H|H];
                      [ injection H as H; apply append_cancel in H; discriminate
                      | ]);
              exact H
            | ]).
    constructor.
  - cbn [msgs map].
    repeat (constructor; [simpl; intuition discriminate|]); constructor.
Qed.

(** X12: every message that [visit_classdef] adds for a class has a
    definition in [msgs], and its template takes the one argument the
    message carries: the text of the message is the template with the
    name of the class between the brackets. *)
Theorem diagnostics_have_text (BASE_ID : Z) (node : ClassDef) (m : Message) :
  In m (diagnostics_of node) ->
  exists word,
    In (msg_id m, word) section_word
    /\ message_text BASE_ID m
       = Some (raw "Filter's (" ++ name node
               ++ raw ") docstring is missing the required "
               ++ raw word ++ raw " section or is badly formatted").
Proof.
  rewrite diagnostics_of_run. destruct (selected node); [|intros []].
  intros Hm. apply in_map_iff in Hm. destruct Hm as (x & <- & Hx).
  apply in_violations in Hx.
  destruct Hx as [[_ ->]|[[_ ->]|[_ ->]]].
  - exists "purpose". split; [simpl; auto|]. reflexivity.
  - exists "type". split; [simpl; auto|]. reflexivity.
  - exists "trigger". split; [simpl; auto|]. reflexivity.
Qed.

Lemma diagnostics_have_text_witness :
  exists word,
    In (DOCSTRING_MISSING_TYPE, word) section_word
    /\ message_text 76 (diagnostic undocumented_filter DOCSTRING_MISSING_TYPE)
       = Some (raw "Filter's (" ++ lit "CertificateRenderStarted"
               ++ raw ") docstring is missing the required "
               ++ raw word ++ raw " section or is badly formatted").
Proof.
  apply (diagnostics_have_text 76 undocumented_filter
           (diagnostic undocumented_filter DOCSTRING_MISSING_TYPE)).
  right. left. reflexivity.
Defined.
